(** * CPointPDFParticles: a particle ensemble over a 3D point and its schema codec

    A shallow embedding of [mrpt::poses::CPointPDFParticles]
    (libs/poses/include/mrpt/poses/CPointPDFParticles.h).

    The header defines [size], [serializeTo] and [serializeFrom]; these are
    translated line by line.  [setSize], [getMean], [getCovarianceAndMean]
    and [drawSingleSample] are only declared there: their bodies live in the
    .cpp file, so they are modelled from the written specification and each
    such definition says so.

    Numbers.  The coordinates are IEEE single precision and the log-weight
    is double precision; both are represented by the real number they
    denote.  The codec only copies these values, it never computes with
    them.  Fixed-width integers ([uint8_t], [uint32_t], [int]) are [Z] with
    their wrap-around written out. *)

From Stdlib Require Import ZArith List String Bool Reals Lia Lra.
Import ListNotations.

Local Open Scope string_scope.
Local Open Scope list_scope.
Local Open Scope Z_scope.

Set Warnings "-register-all".

(** ** Data model *)

(** [mrpt::math::TPoint3Df]: three single-precision coordinates. *)
Record TPoint3Df : Type := mkTPoint3Df { x : R; y : R; z : R }.

(** [mrpt::bayes::CProbabilityParticle<TPoint3Df>]: the datum [d] (owned
    through a copying pointer, hence a plain value here) and its
    log-weight. *)
Record CProbabilityParticle : Type :=
  mkParticle { d : TPoint3Df; log_w : R }.

(** [CParticleList], a [std::deque] of particles, in insertion order. *)
Definition CParticleList : Type := list CProbabilityParticle.

(** The object state: the only data member is [m_particles]. *)
Record CPointPDFParticles : Type := mkPDF { m_particles : CParticleList }.

(** ** Fixed-width integers *)

Definition to_uint8 (n : Z) : Z := n mod 2 ^ 8.
Definition to_uint32 (n : Z) : Z := n mod 2 ^ 32.

(** A value brought into the range of a 32-bit [int], two's complement. *)
Definition to_int32 (n : Z) : Z := (n + 2 ^ 31) mod 2 ^ 32 - 2 ^ 31.

(** [++k] on an [int].  Overflow of a signed counter is undefined in C++;
    what is written here is the wrap-around of the usual targets.  Every
    property below that follows a counter keeps it under 2^31, where the
    increment does not overflow and the two readings agree. *)
Definition int_succ (k : Z) : Z := to_int32 (k + 1).

(** ** The schema container

    Modelled from the spec: the [SCHEMA_CAPABLE] template parameter of
    [serializeTo] and [serializeFrom] is not declared in the header.  The
    specification describes it as a generic tree of maps, arrays and
    scalars; the operations below are the ones the two templates use
    ([operator[]] by name and by position, [get] with a default, comparison
    with a string, assignment of scalars and the conversions back). *)
Inductive SCHEMA_CAPABLE : Type :=
| SNull
| SInt (n : Z)
| SReal (r : R)
| SStr (s : string)
| SArr (items : list SCHEMA_CAPABLE)
| SObj (members : list (string * SCHEMA_CAPABLE)).

Fixpoint assoc_get (key : string) (ms : list (string * SCHEMA_CAPABLE))
  : option SCHEMA_CAPABLE :=
  match ms with
  | [] => None
  | (k, v) :: rest => if String.eqb key k then Some v else assoc_get key rest
  end.

(** Assignment to a member overwrites it in place, or appends a new one. *)
Fixpoint assoc_set (key : string) (v : SCHEMA_CAPABLE)
  (ms : list (string * SCHEMA_CAPABLE)) : list (string * SCHEMA_CAPABLE) :=
  match ms with
  | [] => [(key, v)]
  | (k, w) :: rest =>
      if String.eqb key k then (k, v) :: rest
      else (k, w) :: assoc_set key v rest
  end.

(** [in.get(key, dflt)]. *)
Definition get (key : string) (dflt : SCHEMA_CAPABLE) (v : SCHEMA_CAPABLE)
  : SCHEMA_CAPABLE :=
  match v with
  | SObj ms => match assoc_get key ms with Some w => w | None => dflt end
  | _ => dflt
  end.

(** [v[key]] read: a missing member reads as null. *)
Definition member (key : string) (v : SCHEMA_CAPABLE) : SCHEMA_CAPABLE :=
  get key SNull v.

(** [v[key] = w]: a value that is not yet an object becomes one. *)
Definition set_member (key : string) (w : SCHEMA_CAPABLE)
  (v : SCHEMA_CAPABLE) : SCHEMA_CAPABLE :=
  match v with
  | SObj ms => SObj (assoc_set key w ms)
  | _ => SObj [(key, w)]
  end.

(** [v[k]] read by position: outside the array (also for a negative [k])
    the entry reads as null. *)
Definition index (k : Z) (v : SCHEMA_CAPABLE) : SCHEMA_CAPABLE :=
  match v with
  | SArr items => if k <? 0 then SNull else nth (Z.to_nat k) items SNull
  | _ => SNull
  end.

(** Writing position [n] of an array extends it with nulls up to [n]. *)
Fixpoint list_set (n : nat) (w : SCHEMA_CAPABLE) (items : list SCHEMA_CAPABLE)
  : list SCHEMA_CAPABLE :=
  match n, items with
  | O, [] => [w]
  | O, _ :: rest => w :: rest
  | S n', [] => SNull :: list_set n' w []
  | S n', h :: rest => h :: list_set n' w rest
  end.

(** [v[k] = w]: a value that is not yet an array becomes one; a negative
    position is not written. *)
Definition set_index (k : Z) (w : SCHEMA_CAPABLE) (v : SCHEMA_CAPABLE)
  : SCHEMA_CAPABLE :=
  if k <? 0 then v
  else match v with
       | SArr items => SArr (list_set (Z.to_nat k) w items)
       | _ => SArr (list_set (Z.to_nat k) w [])
       end.

(** [v == "text"]: only a string scalar compares equal to a string. *)
Definition eq_str (v : SCHEMA_CAPABLE) (s : string) : bool :=
  match v with
  | SStr t => String.eqb t s
  | _ => false
  end.

(** Conversion of a floating scalar to an integer truncates toward zero. *)
Definition Rtrunc (r : R) : Z :=
  if Rle_dec 0 r then Int_part r else - Int_part (- r).

(** Conversion of a scalar to an integer; null and non-numbers read as 0. *)
Definition as_int (v : SCHEMA_CAPABLE) : Z :=
  match v with
  | SInt n => n
  | SReal r => Rtrunc r
  | _ => 0
  end.

(** Conversion of a scalar to a floating value; null and non-numbers read
    as 0. *)
Definition as_real (v : SCHEMA_CAPABLE) : R :=
  match v with
  | SReal r => r
  | SInt n => IZR n
  | _ => 0%R
  end.

(** ** Methods as computations on the object state

    A method takes the state of [*this] and gives back its result, or the
    exception it throws, together with the state it leaves behind. *)

Inductive exception : Type :=
| UnknownSerializationVersion (version : Z)
| PreconditionViolation.

Inductive result (A : Type) : Type :=
| Ret (a : A)
| Throw (e : exception).
Arguments Ret {A} a.
Arguments Throw {A} e.

Definition M (A : Type) : Type :=
  CPointPDFParticles -> result A * CPointPDFParticles.

Definition ret {A : Type} (a : A) : M A := fun this => (Ret a, this).

Definition throw {A : Type} (e : exception) : M A :=
  fun this => (Throw e, this).

Definition bind {A B : Type} (m : M A) (f : A -> M B) : M B :=
  fun this =>
    match m this with
    | (Ret a, this') => f a this'
    | (Throw e, this') => (Throw e, this')
    end.

Notation "v <- m ;; k" := (bind m (fun v => k))
  (at level 61, m at next level, right associativity).
Notation "m ;;; k" := (bind m (fun _ => k))
  (at level 61, right associativity).

(** Read and write of the data member. *)
Definition read_particles : M CParticleList :=
  fun this => (Ret (m_particles this), this).

Definition write_particles (ps : CParticleList) : M unit :=
  fun _ => (Ret tt, mkPDF ps).

(** ** Particle Ensemble Store *)

(** [size_t size() const { return m_particles.size(); }] *)
Definition size : M nat :=
  ps <- read_particles ;; ret (List.length ps).

(** Modelled from the spec: [setSize] is declared in the header and defined
    in the .cpp file.  Section 4.1: the ensemble becomes exactly [n]
    particles, each holding the default value with log-weight 0; any
    previous content is discarded. *)
Definition setSize (numberParticles : nat) (defaultValue : TPoint3Df)
  : M unit :=
  write_particles (repeat (mkParticle defaultValue 0%R) numberParticles).

(** The default argument [TPoint3Df{0, 0, 0}] of [setSize]. *)
Definition origin : TPoint3Df := mkTPoint3Df 0%R 0%R 0%R.

(** ** Codec *)

(** Modelled from the spec: [GetRuntimeClass()->className] comes from the
    [DEFINE_SERIALIZABLE] machinery, which is not in the header; it is the
    name of the class. *)
Definition className : string := "CPointPDFParticles".

(** [out["particles"][k][field] = w], with the containers on the path
    created on first use. *)
Definition assign_particle_field (k : Z) (field : string)
  (w : SCHEMA_CAPABLE) (out : SCHEMA_CAPABLE) : SCHEMA_CAPABLE :=
  set_member "particles"
    (set_index k
       (set_member field w (index k (member "particles" out)))
       (member "particles" out))
    out.

(** The body of the loop of [serializeTo], for the particle [it]. *)
Definition write_particle (k : Z) (it : CProbabilityParticle)
  (out : SCHEMA_CAPABLE) : SCHEMA_CAPABLE :=
  let out := assign_particle_field k "log_w" (SReal (log_w it)) out in
  let out := assign_particle_field k "x" (SReal (x (d it))) out in
  let out := assign_particle_field k "y" (SReal (y (d it))) out in
  let out := assign_particle_field k "z" (SReal (z (d it))) out in
  out.

(** The loop of [serializeTo]: the iterator walks [m_particles] while the
    [int k] counts from its initial value. *)
Fixpoint serializeTo_loop (ps : CParticleList) (k : Z)
  (out : SCHEMA_CAPABLE) : SCHEMA_CAPABLE :=
  match ps with
  | [] => out
  | it :: rest =>
      serializeTo_loop rest (int_succ k) (write_particle k it out)
  end.

(** [template <typename SCHEMA_CAPABLE> SCHEMA_CAPABLE serializeTo() const] *)
Definition serializeTo : M SCHEMA_CAPABLE :=
  let out := SNull in
  let out := set_member "datatype" (SStr className) out in
  let out := set_member "version" (SInt 1) out in
  n <- size ;;
  let out := set_member "N" (SInt (to_uint32 (Z.of_nat n))) out in
  ps <- read_particles ;;
  ret (serializeTo_loop ps 0 out).

(** Assignment to one field of the particle under the iterator. *)
Definition set_log_w (v : R) (it : CProbabilityParticle)
  : CProbabilityParticle :=
  mkParticle (d it) v.
Definition set_x (v : R) (it : CProbabilityParticle) : CProbabilityParticle :=
  mkParticle (mkTPoint3Df v (y (d it)) (z (d it))) (log_w it).
Definition set_y (v : R) (it : CProbabilityParticle) : CProbabilityParticle :=
  mkParticle (mkTPoint3Df (x (d it)) v (z (d it))) (log_w it).
Definition set_z (v : R) (it : CProbabilityParticle) : CProbabilityParticle :=
  mkParticle (mkTPoint3Df (x (d it)) (y (d it)) v) (log_w it).

(** [in["particles"][k][field]] converted to a floating value. *)
Definition particle_field (inp : SCHEMA_CAPABLE) (k : Z) (field : string)
  : R :=
  as_real (member field (index k (member "particles" inp))).

(** The body of the loop of [serializeFrom]: the particle under the
    iterator receives the four fields of [in["particles"][k]].  The
    conversion of a schema value into the single-precision members [x],
    [y], [z] is taken as exact: it is for the values the encoder writes,
    which come from such members. *)
Definition read_particle (inp : SCHEMA_CAPABLE) (k : Z)
  (it : CProbabilityParticle) : CProbabilityParticle :=
  let it := set_log_w (particle_field inp k "log_w") it in
  let it := set_x (particle_field inp k "x") it in
  let it := set_y (particle_field inp k "y") it in
  let it := set_z (particle_field inp k "z") it in
  it.

(** The loop of [serializeFrom]: every particle of [m_particles] is
    overwritten in turn while [k] counts up from the value it holds when
    the loop is entered.  The source declares the iterator as a
    [const_iterator] and assigns through it; the assignments are modelled
    as the writes they spell out.  Reading [in] through [operator[]] may
    create the entries it misses inside [in]; the input is not part of the
    object state, so those insertions are not tracked. *)
Fixpoint serializeFrom_loop (inp : SCHEMA_CAPABLE) (ps : CParticleList)
  (k : Z) : CParticleList :=
  match ps with
  | [] => []
  | it :: rest =>
      read_particle inp k it :: serializeFrom_loop inp rest (int_succ k)
  end.

(** The version the decoder switches on:
    [uint8_t version = in.get("version",0);] *)
Definition version_of (inp : SCHEMA_CAPABLE) : Z :=
  to_uint8 (as_int (get "version" (SInt 0) inp)).

(** The count the decoder resizes to: [uint32_t N = in["N"];] *)
Definition N_of (inp : SCHEMA_CAPABLE) : Z :=
  to_uint32 (as_int (member "N" inp)).

(** [template <typename SCHEMA_CAPABLE> void serializeFrom(SCHEMA_CAPABLE& in)]

    The local [int k;] is declared without an initialiser (the encoder has
    [int k = 0;]), so the value it holds when the loop starts is not fixed
    by the program: it is the extra argument [k_uninit]. *)
Definition serializeFrom (inp : SCHEMA_CAPABLE) (k_uninit : Z) : M unit :=
  let version := version_of inp in
  if eq_str (member "datatype" inp) className then
    if version =? 1 then
      let N := N_of inp in
      setSize (Z.to_nat N) origin ;;;
      ps <- read_particles ;;
      write_particles (serializeFrom_loop inp ps k_uninit)
    else throw (UnknownSerializationVersion version)
  else ret tt.

(** The decoder as the encoder is written, with [k] starting at 0. *)
Definition serializeFrom_k0 (inp : SCHEMA_CAPABLE) : M unit :=
  serializeFrom inp 0.

(** ** Statistical Estimator *)

(** [mrpt::poses::CPoint3D], the double-precision point the estimator and
    the sampler hand back. *)
Record CPoint3D : Type := mkCPoint3D { m_x : R; m_y : R; m_z : R }.

(** [mrpt::math::CMatrixDouble33], row by row. *)
Definition CMatrixDouble33 : Type :=
  ((R * R * R) * (R * R * R) * (R * R * R))%type.

Definition Rsum (l : list R) : R := fold_right Rplus 0%R l.

(** The largest log-weight of a non-empty ensemble. *)
Definition max_log_w (ps : CParticleList) : R :=
  match ps with
  | [] => 0%R
  | p :: rest => fold_left (fun m q => Rmax m (log_w q)) rest (log_w p)
  end.

(** Modelled from the spec: section 4.2 prescribes one normalisation for
    every statistic.  The maximum log-weight is subtracted before
    exponentiating, and the rescaled weights are divided by their sum so
    that they add up to 1. *)
Definition normalized_weights (ps : CParticleList) : list R :=
  let m := max_log_w ps in
  let ws := map (fun p => exp (log_w p - m)) ps in
  let total := Rsum ws in
  map (fun w => (w / total)%R) ws.

(** [sum_i w_i * f(p_i)] over the ensemble. *)
Definition weighted_sum (ws : list R) (f : CProbabilityParticle -> R)
  (ps : CParticleList) : R :=
  Rsum (map (fun wp => (fst wp * f (snd wp))%R) (combine ws ps)).

Definition mean_of (ps : CParticleList) : CPoint3D :=
  let ws := normalized_weights ps in
  mkCPoint3D (weighted_sum ws (fun p => x (d p)) ps)
             (weighted_sum ws (fun p => y (d p)) ps)
             (weighted_sum ws (fun p => z (d p)) ps).

(** Modelled from the spec: [getMean] is declared in the header and defined
    in the .cpp file.  Section 4.2: the weight-normalised arithmetic mean;
    the zero point for an empty ensemble. *)
Definition getMean : M CPoint3D :=
  ps <- read_particles ;;
  match ps with
  | [] => ret (mkCPoint3D 0 0 0)
  | _ :: _ => ret (mean_of ps)
  end.

(** Modelled from the spec: [getCovarianceAndMean] is declared in the header
    and defined in the .cpp file.  Section 4.2: the mean together with
    [sum_i w_i (p_i - mean)(p_i - mean)^t] under the same normalised
    weights; the upper triangle is computed and mirrored. *)
Definition getCovarianceAndMean : M (CMatrixDouble33 * CPoint3D) :=
  mean_point <- getMean ;;
  ps <- read_particles ;;
  let ws := normalized_weights ps in
  let dx := fun p => (x (d p) - m_x mean_point)%R in
  let dy := fun p => (y (d p) - m_y mean_point)%R in
  let dz := fun p => (z (d p) - m_z mean_point)%R in
  let cxx := weighted_sum ws (fun p => (dx p * dx p)%R) ps in
  let cxy := weighted_sum ws (fun p => (dx p * dy p)%R) ps in
  let cxz := weighted_sum ws (fun p => (dx p * dz p)%R) ps in
  let cyy := weighted_sum ws (fun p => (dy p * dy p)%R) ps in
  let cyz := weighted_sum ws (fun p => (dy p * dz p)%R) ps in
  let czz := weighted_sum ws (fun p => (dz p * dz p)%R) ps in
  ret (((cxx, cxy, cxz), (cxy, cyy, cyz), (cxz, cyz, czz)), mean_point).

(** Adding the constant [c] to the log-weight of one particle, and of
    every particle of the ensemble. *)
Definition shift_particle (c : R) (p : CProbabilityParticle)
  : CProbabilityParticle :=
  mkParticle (d p) (log_w p + c).

Definition shift_log_w (c : R) (e : CPointPDFParticles) : CPointPDFParticles :=
  mkPDF (map (shift_particle c) (m_particles e)).

(** ** Sampler *)

(** Inverse-transform selection: the first particle at which the running
    sum of the normalised weights exceeds [u]; the last one if rounding
    leaves [u] beyond the total. *)
Fixpoint pick (u : R) (ws : list R) (ps : CParticleList)
  (last : TPoint3Df) : TPoint3Df :=
  match ws, ps with
  | w :: ws', p :: ps' =>
      if Rlt_dec u w then d p else pick (u - w) ws' ps' (d p)
  | _, _ => last
  end.

(** Modelled from the spec: [drawSingleSample] is declared in the header and
    defined in the .cpp file.  Section 4.4: one particle is selected with
    probability proportional to its normalised weight and its point is
    returned verbatim; sampling from an empty ensemble is an explicit
    precondition failure.  The random source is the argument [u], a draw
    from [0, 1). *)
Definition drawSingleSample (u : R) : M CPoint3D :=
  ps <- read_particles ;;
  match ps with
  | [] => throw PreconditionViolation
  | p :: _ =>
      let s := pick u (normalized_weights ps) ps (d p) in
      ret (mkCPoint3D (x s) (y s) (z s))
  end.

(** ** Closed form of the encoder's output *)

(** The entry the encoder writes for one particle. *)
Definition particle_schema (p : CProbabilityParticle) : SCHEMA_CAPABLE :=
  SObj [("log_w", SReal (log_w p)); ("x", SReal (x (d p)));
        ("y", SReal (y (d p))); ("z", SReal (z (d p)))].

(** The three members written before the loop, for [n] particles. *)
Definition header (n : nat) : list (string * SCHEMA_CAPABLE) :=
  [("datatype", SStr className); ("version", SInt 1);
   ("N", SInt (to_uint32 (Z.of_nat n)))].

(** The whole value: the member [particles] exists only once the loop has
    run at least once. *)
Definition encoded (ps : CParticleList) : SCHEMA_CAPABLE :=
  match ps with
  | [] => SObj (header 0)
  | _ :: _ =>
      SObj (header (List.length ps)
              ++ [("particles", SArr (map particle_schema ps))])
  end.

(** Whether an object carries the member [key]. *)
Definition has_member (key : string) (v : SCHEMA_CAPABLE) : bool :=
  match v with
  | SObj ms => match assoc_get key ms with Some _ => true | None => false end
  | _ => false
  end.

(** The four fields of an array entry, and of a particle. *)
Definition entry_fields (entry : SCHEMA_CAPABLE)
  : SCHEMA_CAPABLE * SCHEMA_CAPABLE * SCHEMA_CAPABLE * SCHEMA_CAPABLE :=
  (member "log_w" entry, member "x" entry, member "y" entry, member "z" entry).

Definition particle_fields (p : CProbabilityParticle)
  : SCHEMA_CAPABLE * SCHEMA_CAPABLE * SCHEMA_CAPABLE * SCHEMA_CAPABLE :=
  (SReal (log_w p), SReal (x (d p)), SReal (y (d p)), SReal (z (d p))).

(** ** Concrete ensembles and schemas used below *)

Definition sample_particle : CProbabilityParticle :=
  mkParticle (mkTPoint3Df 1 2 3) 4.

Definition sample_ensemble : CPointPDFParticles := mkPDF [sample_particle].

(** A new instance resized to [n] default particles. *)
Definition fresh_instance (n : nat) : CPointPDFParticles :=
  snd (setSize n origin (mkPDF [])).

Definition schema_version_257 : SCHEMA_CAPABLE :=
  SObj [("datatype", SStr className); ("version", SInt 257); ("N", SInt 1);
        ("particles", SArr [particle_schema sample_particle])].

Definition schema_version_2 : SCHEMA_CAPABLE :=
  SObj [("datatype", SStr className); ("version", SInt 2); ("N", SInt 1);
        ("particles", SArr [particle_schema sample_particle])].

Definition schema_foreign : SCHEMA_CAPABLE :=
  SObj [("datatype", SStr "CPose2D"); ("version", SInt 1); ("N", SInt 1);
        ("particles", SArr [particle_schema sample_particle])].

Definition schema_no_version : SCHEMA_CAPABLE :=
  SObj [("datatype", SStr className); ("N", SInt 1);
        ("particles", SArr [particle_schema sample_particle])].

Definition schema_N_wraps : SCHEMA_CAPABLE :=
  SObj [("datatype", SStr className); ("version", SInt 1);
        ("N", SInt (2 ^ 32 + 1))].

Definition schema_three : SCHEMA_CAPABLE :=
  SObj [("datatype", SStr className); ("version", SInt 1); ("N", SInt 3)].

(** ** Vocabulary for the further properties of the codec *)

(** The particle the decoder builds from [in["particles"][j]] alone: all
    four fields of the particle under the iterator are overwritten. *)
Definition entry_particle (inp : SCHEMA_CAPABLE) (j : Z)
  : CProbabilityParticle :=
  mkParticle
    (mkTPoint3Df (particle_field inp j "x") (particle_field inp j "y")
       (particle_field inp j "z"))
    (particle_field inp j "log_w").

(** The particle at the signed position [j] of an ensemble; the particle
    [(0, 0, 0)] with log-weight 0 where the ensemble has none. *)
Definition particle_at (ps : CParticleList) (j : Z) : CProbabilityParticle :=
  if j <? 0 then mkParticle origin 0
  else nth (Z.to_nat j) ps (mkParticle origin 0).

(** A second particle and a two-particle ensemble. *)
Definition other_particle : CProbabilityParticle :=
  mkParticle (mkTPoint3Df 5 6 7) 8.

Definition sample_pair : CPointPDFParticles :=
  mkPDF [sample_particle; other_particle].

(** A matching schema whose version is 513. *)
Definition schema_version_513 : SCHEMA_CAPABLE :=
  SObj [("datatype", SStr className); ("version", SInt 513); ("N", SInt 1);
        ("particles", SArr [particle_schema other_particle])].

(** [schema_three] with a member the decoder never asks for. *)
Definition schema_three_annotated : SCHEMA_CAPABLE :=
  SObj [("comment", SStr "exported"); ("datatype", SStr className);
        ("version", SInt 1); ("N", SInt 3)].

(** * Properties *)

(** Running a method: unfold the plumbing of the state. *)
Ltac run_method :=
  unfold bind, ret, throw, read_particles, write_particles;
  cbn [m_particles].

(** ** Arrays of the schema *)

Lemma list_set_length (w : SCHEMA_CAPABLE) (l : list SCHEMA_CAPABLE) :
  list_set (List.length l) w l = l ++ [w].
Proof. induction l as [|h t IH]; simpl; [reflexivity | now rewrite IH]. Qed.

Lemma list_set_last (w v : SCHEMA_CAPABLE) (l : list SCHEMA_CAPABLE) :
  list_set (List.length l) w (l ++ [v]) = l ++ [w].
Proof. induction l as [|h t IH]; simpl; [reflexivity | now rewrite IH]. Qed.

Lemma nth_last (v : SCHEMA_CAPABLE) (l : list SCHEMA_CAPABLE) :
  nth (List.length l) (l ++ [v]) SNull = v.
Proof. induction l as [|h t IH]; simpl; [reflexivity | exact IH]. Qed.

Lemma nth_length (l : list SCHEMA_CAPABLE) :
  nth (List.length l) l SNull = SNull.
Proof. apply nth_overflow. lia. Qed.

Lemma index_of_nat (i : nat) (l : list SCHEMA_CAPABLE) :
  index (Z.of_nat i) (SArr l) = nth i l SNull.
Proof.
  unfold index. destruct (Z.ltb_spec (Z.of_nat i) 0) as [H|H]; [lia|].
  now rewrite Nat2Z.id.
Qed.

Lemma set_index_of_nat (i : nat) (w : SCHEMA_CAPABLE)
  (l : list SCHEMA_CAPABLE) :
  set_index (Z.of_nat i) w (SArr l) = SArr (list_set i w l).
Proof.
  unfold set_index. destruct (Z.ltb_spec (Z.of_nat i) 0) as [H|H]; [lia|].
  now rewrite Nat2Z.id.
Qed.

Lemma index_singleton_off (k : Z) (v : SCHEMA_CAPABLE) :
  k <> 0 -> index k (SArr [v]) = SNull.
Proof.
  intros Hk. unfold index. destruct (Z.ltb_spec k 0) as [H|H]; [reflexivity|].
  destruct (Z.to_nat k) as [|n] eqn:E; [lia|]. now destruct n.
Qed.

Lemma map_nth_seq (A : Type) (g : SCHEMA_CAPABLE -> A)
  (l : list SCHEMA_CAPABLE) :
  map (fun i => g (nth i l SNull)) (seq 0 (List.length l)) = map g l.
Proof.
  induction l as [|h t IH]; [reflexivity|].
  cbn [List.length seq map nth]. f_equal.
  rewrite <- seq_shift, map_map. exact IH.
Qed.

Lemma eq_str_true (v : SCHEMA_CAPABLE) (s : string) :
  eq_str v s = true <-> v = SStr s.
Proof.
  destruct v; cbn; try (split; [discriminate | discriminate]).
  rewrite String.eqb_eq. split; [now intros -> | now intros [= ->]].
Qed.

Lemma eq_str_refl (s : string) : eq_str (SStr s) s = true.
Proof. now apply eq_str_true. Qed.

Lemma to_uint32_small (n : Z) : 0 <= n < 2 ^ 32 -> to_uint32 n = n.
Proof. intros H. unfold to_uint32. now apply Z.mod_small. Qed.

Lemma to_int32_small (n : Z) : - 2 ^ 31 <= n < 2 ^ 31 -> to_int32 n = n.
Proof.
  intros H. unfold to_int32. rewrite Z.mod_small; lia.
Qed.

(** Below the top of the range the increment is the plain successor. *)
Lemma int_succ_small (k : Z) :
  - 2 ^ 31 <= k -> k + 1 < 2 ^ 31 -> int_succ k = k + 1.
Proof. intros Hlo Hhi. unfold int_succ. apply to_int32_small. lia. Qed.

(** ** The encoder in closed form *)

Lemma assign_particle_field_next (n i : nat) (field : string)
  (w : SCHEMA_CAPABLE) (arr : list SCHEMA_CAPABLE) :
  assign_particle_field (Z.of_nat i) field w
    (SObj (header n ++ [("particles", SArr arr)]))
  = SObj (header n
            ++ [("particles",
                 SArr (list_set i (set_member field w (nth i arr SNull))
                         arr))]).
Proof.
  unfold assign_particle_field.
  change (member "particles" (SObj (header n ++ [("particles", SArr arr)])))
    with (SArr arr).
  rewrite index_of_nat, set_index_of_nat. reflexivity.
Qed.

Lemma write_particle_first (n : nat) (p : CProbabilityParticle) :
  write_particle 0 p (SObj (header n))
  = SObj (header n ++ [("particles", SArr [particle_schema p])]).
Proof. reflexivity. Qed.

Lemma write_particle_next (n : nat) (p : CProbabilityParticle)
  (arr : list SCHEMA_CAPABLE) :
  write_particle (Z.of_nat (List.length arr)) p
    (SObj (header n ++ [("particles", SArr arr)]))
  = SObj (header n ++ [("particles", SArr (arr ++ [particle_schema p]))]).
Proof.
  unfold write_particle.
  rewrite assign_particle_field_next, nth_length, list_set_length.
  do 3 (rewrite assign_particle_field_next, nth_last, list_set_last).
  reflexivity.
Qed.

Lemma serializeTo_loop_next (n : nat) (ps : CParticleList) :
  forall arr : list SCHEMA_CAPABLE,
    Z.of_nat (List.length arr + List.length ps) < 2 ^ 31 ->
    serializeTo_loop ps (Z.of_nat (List.length arr))
      (SObj (header n ++ [("particles", SArr arr)]))
    = SObj (header n
              ++ [("particles", SArr (arr ++ map particle_schema ps))]).
Proof.
  induction ps as [|p ps IH]; intros arr Hfit; cbn [serializeTo_loop].
  - now rewrite app_nil_r.
  - cbn [List.length] in Hfit.
    rewrite write_particle_next, int_succ_small by lia.
    replace (Z.of_nat (List.length arr) + 1)
      with (Z.of_nat (List.length (arr ++ [particle_schema p])))
      by (rewrite length_app; simpl; lia).
    rewrite IH, <- app_assoc; [reflexivity|].
    rewrite length_app. cbn [List.length]. lia.
Qed.

Lemma serializeTo_loop_value (ps : CParticleList) :
  Z.of_nat (List.length ps) < 2 ^ 31 ->
  serializeTo_loop ps 0 (SObj (header (List.length ps))) = encoded ps.
Proof.
  destruct ps as [|p ps]; [reflexivity|]. intros Hfit.
  cbn [serializeTo_loop]. rewrite write_particle_first.
  change (int_succ 0) with (Z.of_nat (List.length [particle_schema p])).
  rewrite serializeTo_loop_next; [reflexivity|].
  cbn [List.length] in *. lia.
Qed.

(** The value [serializeTo] returns for an ensemble that the [int]
    counter can count. *)
Lemma serializeTo_value (e : CPointPDFParticles) :
  Z.of_nat (List.length (m_particles e)) < 2 ^ 31 ->
  serializeTo e = (Ret (encoded (m_particles e)), e).
Proof.
  intros Hfit. unfold serializeTo, size. run_method. cbn [set_member].
  change (SObj _) with (SObj (header (List.length (m_particles e)))).
  now rewrite serializeTo_loop_value.
Qed.

Lemma member_encoded_N (ps : CParticleList) :
  member "N" (encoded ps) = SInt (to_uint32 (Z.of_nat (List.length ps))).
Proof. destruct ps; reflexivity. Qed.

Lemma member_encoded_datatype (ps : CParticleList) :
  member "datatype" (encoded ps) = SStr className.
Proof. destruct ps; reflexivity. Qed.

Lemma get_encoded_version (ps : CParticleList) :
  get "version" (SInt 0) (encoded ps) = SInt 1.
Proof. destruct ps; reflexivity. Qed.

(** ** The decoder on an encoded value *)

Lemma particle_eta (p : CProbabilityParticle) :
  mkParticle (mkTPoint3Df (x (d p)) (y (d p)) (z (d p))) (log_w p) = p.
Proof. destruct p as [[px py pz] lw]; reflexivity. Qed.

Lemma read_particle_at (inp : SCHEMA_CAPABLE) (arr : list SCHEMA_CAPABLE)
  (i : nat) (p it : CProbabilityParticle) :
  member "particles" inp = SArr arr ->
  nth i arr SNull = particle_schema p ->
  read_particle inp (Z.of_nat i) it = p.
Proof.
  intros Harr Hnth. unfold read_particle, particle_field.
  rewrite Harr, index_of_nat, Hnth.
  unfold set_z, set_y, set_x, set_log_w. cbn. apply particle_eta.
Qed.

Lemma serializeFrom_loop_length (inp : SCHEMA_CAPABLE) (ps : CParticleList) :
  forall k, List.length (serializeFrom_loop inp ps k) = List.length ps.
Proof.
  induction ps as [|p ps IH]; intros k; simpl; [|rewrite IH]; reflexivity.
Qed.

Lemma serializeFrom_loop_encoded (inp : SCHEMA_CAPABLE) (ps : CParticleList) :
  forall (pre qs : CParticleList),
    member "particles" inp = SArr (map particle_schema (pre ++ ps)) ->
    List.length qs = List.length ps ->
    Z.of_nat (List.length pre + List.length ps) < 2 ^ 31 ->
    serializeFrom_loop inp qs (Z.of_nat (List.length pre)) = ps.
Proof.
  induction ps as [|p ps IH]; intros pre qs Harr Hlen Hfit.
  - destruct qs; [reflexivity | discriminate].
  - destruct qs as [|q qs]; [discriminate|]. cbn [serializeFrom_loop].
    cbn [List.length] in Hfit. f_equal.
    + apply read_particle_at
        with (arr := map particle_schema (pre ++ p :: ps)); [exact Harr|].
      rewrite map_app. cbn [map].
      rewrite <- (length_map particle_schema pre). apply nth_middle.
    + rewrite int_succ_small by lia.
      replace (Z.of_nat (List.length pre) + 1)
        with (Z.of_nat (List.length (pre ++ [p])))
        by (rewrite length_app; simpl; lia).
      apply IH; [|simpl in Hlen; lia|].
      * rewrite <- app_assoc. exact Harr.
      * rewrite length_app. cbn [List.length]. lia.
Qed.

(** With [k] starting at 0, as in the encoder, the decoder inverts the
    encoder on every ensemble that the [int] counter can count, whatever
    the target held before. *)
Lemma serializeFrom_k0_serializeTo (e e0 : CPointPDFParticles)
  (out : SCHEMA_CAPABLE) :
  Z.of_nat (List.length (m_particles e)) < 2 ^ 31 ->
  serializeTo e = (Ret out, e) ->
  serializeFrom_k0 out e0 = (Ret tt, e).
Proof.
  intros Hfit Hout. rewrite serializeTo_value in Hout by exact Hfit.
  assert (Hsmall : Z.of_nat (List.length (m_particles e)) < 2 ^ 32) by lia.
  injection Hout as <-. destruct e as [ps]. cbn [m_particles] in *.
  unfold serializeFrom_k0, serializeFrom, version_of, N_of.
  rewrite member_encoded_datatype, get_encoded_version, member_encoded_N.
  cbn [as_int].
  rewrite !(to_uint32_small (Z.of_nat (List.length ps)))
    by (split; [apply Nat2Z.is_nonneg | exact Hsmall]).
  rewrite Nat2Z.id, eq_str_refl.
  change (to_uint8 1 =? 1) with true. cbv iota.
  unfold setSize. run_method. do 2 f_equal.
  destruct ps as [|p ps]; [reflexivity|].
  apply (serializeFrom_loop_encoded _ (p :: ps) []).
  - reflexivity.
  - apply repeat_length.
  - exact Hfit.
Qed.

(** ** Codec: round trip *)

(** C1 (code defect).  The round trip through [serializeTo] and
    [serializeFrom] into a fresh instance of the same size is lost as soon
    as the uninitialised loop counter [k] of the decoder holds anything but
    0: for the one-particle ensemble [(1, 2, 3)] with log-weight 4 the
    decoder then reads the missing entry [particles[k]] and leaves the
    particle [(0, 0, 0)] with log-weight 0. *)
Theorem C1_roundtrip_lost_unless_k_is_zero (k : Z) :
  k <> 0 ->
  exists out : SCHEMA_CAPABLE,
    serializeTo sample_ensemble = (Ret out, sample_ensemble) /\
    serializeFrom out k (fresh_instance 1)
    = (Ret tt, mkPDF [mkParticle origin 0]) /\
    mkPDF [mkParticle origin 0] <> sample_ensemble.
Proof.
  intros Hk. exists (encoded [sample_particle]). split; [|split].
  - apply serializeTo_value. reflexivity.
  - unfold serializeFrom, setSize. run_method.
    change (eq_str _ className) with true.
    change (version_of _ =? 1) with true.
    change (Z.to_nat (N_of _)) with 1%nat.
    cbn [repeat m_particles serializeFrom_loop].
    unfold read_particle, particle_field.
    change (member "particles" (encoded [sample_particle]))
      with (SArr [particle_schema sample_particle]).
    rewrite index_singleton_off by exact Hk. reflexivity.
  - intros [= H _]. lra.
Qed.

Lemma C1_roundtrip_lost_at_k_1 :
  exists out : SCHEMA_CAPABLE,
    serializeTo sample_ensemble = (Ret out, sample_ensemble) /\
    serializeFrom out 1 (fresh_instance 1)
    = (Ret tt, mkPDF [mkParticle origin 0]) /\
    mkPDF [mkParticle origin 0] <> sample_ensemble.
Proof. apply (C1_roundtrip_lost_unless_k_is_zero 1). lia. Defined.

(** ** Codec: decoding *)

(** The claim C2 as worded fails: a schema with the matching tag and
    version 257 is read into the 8-bit [version] as 1, so it decodes
    without an error and replaces the ensemble. *)
Lemma C2_version_257_decodes :
  member "datatype" schema_version_257 = SStr className /\
  member "version" schema_version_257 = SInt 257 /\
  SInt 257 <> SInt 1 /\
  serializeFrom schema_version_257 0 (mkPDF []) = (Ret tt, sample_ensemble) /\
  sample_ensemble <> mkPDF [].
Proof.
  repeat split; try reflexivity; discriminate.
Qed.

(** C2 (amended).  For every input schema whose datatype tag matches the
    class name and whose version, read as an 8-bit unsigned integer, is not
    1, [serializeFrom] throws the unknown-version error carrying that
    version and leaves the ensemble unchanged, whatever the counter [k]
    holds. *)
Theorem C2_unknown_version_throws (inp : SCHEMA_CAPABLE) (k : Z)
  (e : CPointPDFParticles) :
  member "datatype" inp = SStr className ->
  version_of inp <> 1 ->
  serializeFrom inp k e
  = (Throw (UnknownSerializationVersion (version_of inp)), e).
Proof.
  intros Htag Hver. unfold serializeFrom.
  rewrite Htag, eq_str_refl.
  destruct (Z.eqb_spec (version_of inp) 1) as [H|H]; [contradiction|].
  reflexivity.
Qed.

Lemma C2_unknown_version_throws_at_2 :
  serializeFrom schema_version_2 0 sample_ensemble
  = (Throw (UnknownSerializationVersion (version_of schema_version_2)),
     sample_ensemble).
Proof.
  apply C2_unknown_version_throws; [reflexivity | vm_compute; lia].
Defined.

(** C3.  For every input schema whose datatype tag is not the class name
    (another string, another kind of value, or no tag at all),
    [serializeFrom] returns normally and leaves the ensemble unchanged,
    whatever the version and the rest of the schema are. *)
Theorem C3_foreign_datatype_is_skipped (inp : SCHEMA_CAPABLE) (k : Z)
  (e : CPointPDFParticles) :
  member "datatype" inp <> SStr className ->
  serializeFrom inp k e = (Ret tt, e).
Proof.
  intros Htag. unfold serializeFrom.
  destruct (eq_str (member "datatype" inp) className) eqn:E; [|reflexivity].
  apply eq_str_true in E. contradiction.
Qed.

Lemma C3_foreign_datatype_is_skipped_at_CPose2D :
  serializeFrom schema_foreign 0 sample_ensemble = (Ret tt, sample_ensemble).
Proof.
  apply C3_foreign_datatype_is_skipped. cbv. discriminate.
Defined.

(** The claim C8 as worded fails: with [N] = 2^32 + 1 in the schema the
    decoder reads [N] into 32 bits and resizes to one particle. *)
Lemma C8_N_wraps_on_decode :
  member "datatype" schema_N_wraps = SStr className /\
  member "version" schema_N_wraps = SInt 1 /\
  member "N" schema_N_wraps = SInt 4294967297 /\
  serializeFrom schema_N_wraps 0 (mkPDF [])
  = (Ret tt, mkPDF [mkParticle origin 0]) /\
  size (mkPDF [mkParticle origin 0])
  = (Ret 1%nat, mkPDF [mkParticle origin 0]) /\
  SInt (Z.of_nat 1) <> SInt 4294967297.
Proof.
  repeat split; try reflexivity; discriminate.
Qed.

(** C8 (amended).  For every input schema whose datatype tag matches and
    whose version reads as 1, [serializeFrom] returns and the ensemble then
    holds as many particles as the field [N] read as a 32-bit unsigned
    integer says, whatever the ensemble held before and whatever the
    counter [k] holds. *)
Theorem C8_decode_resizes_to_N (inp : SCHEMA_CAPABLE) (k : Z)
  (e : CPointPDFParticles) :
  member "datatype" inp = SStr className ->
  version_of inp = 1 ->
  exists e' : CPointPDFParticles,
    serializeFrom inp k e = (Ret tt, e') /\
    size e' = (Ret (Z.to_nat (N_of inp)), e').
Proof.
  intros Htag Hver. unfold serializeFrom.
  rewrite Htag, eq_str_refl, Hver. cbn [Z.eqb Pos.eqb].
  exists (mkPDF (serializeFrom_loop inp
                   (repeat (mkParticle origin 0%R) (Z.to_nat (N_of inp))) k)).
  split; [reflexivity|].
  unfold size. run_method.
  now rewrite serializeFrom_loop_length, repeat_length.
Qed.

Lemma C8_decode_resizes_to_N_at_3 :
  exists e' : CPointPDFParticles,
    serializeFrom schema_three 7 sample_ensemble = (Ret tt, e') /\
    size e' = (Ret (Z.to_nat (N_of schema_three)), e').
Proof.
  apply C8_decode_resizes_to_N; reflexivity.
Defined.

(** The claim C10 as worded fails in its closing sentence: a schema with
    the matching tag and the version 513 carries no version equal to 1,
    yet it is read into the 8-bit [version] as 1 and decodes. *)
Lemma C10_version_513_decodes :
  member "datatype" schema_version_513 = SStr className /\
  has_member "version" schema_version_513 = true /\
  member "version" schema_version_513 = SInt 513 /\
  SInt 513 <> SInt 1 /\
  serializeFrom schema_version_513 0 (mkPDF [])
  = (Ret tt, mkPDF [other_particle]) /\
  mkPDF [other_particle] <> mkPDF [].
Proof.
  repeat split; try reflexivity; discriminate.
Qed.

(** C10 (amended).  For every input schema whose datatype tag matches and
    which has no member [version], the decoder reads the version as the
    default 0 (first conjunct: a schema either has the member or reads as
    version 0); and a matching schema that has no version member, or whose
    version read into 8 bits is not 1, never decodes: the decoder throws
    the unknown-version error for the version it read and leaves the
    ensemble unchanged. *)
Theorem C10_no_version_1_never_decodes (inp : SCHEMA_CAPABLE) (k : Z)
  (e : CPointPDFParticles) :
  member "datatype" inp = SStr className ->
  has_member "version" inp = false \/ version_of inp <> 1 ->
  (has_member "version" inp = true \/ version_of inp = 0) /\
  version_of inp <> 1 /\
  serializeFrom inp k e
  = (Throw (UnknownSerializationVersion (version_of inp)), e).
Proof.
  intros Htag Hcase.
  assert (Hdefault : has_member "version" inp = true \/ version_of inp = 0).
  { unfold version_of, get, has_member. destruct inp; try (now right).
    destruct (assoc_get "version" members); [now left | now right]. }
  assert (Hver : version_of inp <> 1).
  { destruct Hcase as [Hnone|Hver]; [|exact Hver].
    destruct Hdefault as [Hsome|Hzero]; [congruence|].
    rewrite Hzero. discriminate. }
  repeat split; try assumption.
  unfold serializeFrom. rewrite Htag, eq_str_refl.
  destruct (Z.eqb_spec (version_of inp) 1) as [H|H]; [contradiction|].
  reflexivity.
Qed.

Lemma C10_no_version_1_never_decodes_at_sample :
  (has_member "version" schema_no_version = true
   \/ version_of schema_no_version = 0) /\
  version_of schema_no_version <> 1 /\
  serializeFrom schema_no_version 0 sample_ensemble
  = (Throw (UnknownSerializationVersion (version_of schema_no_version)),
     sample_ensemble).
Proof.
  apply C10_no_version_1_never_decodes; [reflexivity | left; reflexivity].
Defined.

(** ** Codec: encoding *)

(** C4.  For every ensemble that the [int] loop counter can count (fewer
    than 2^31 particles), [serializeTo] returns a schema holding
    [datatype] equal to the class name, [version] equal to the integer 1,
    [N] equal to the particle count, and for every position [i] below [N]
    an entry [particles[i]] whose fields [log_w], [x], [y], [z] are those
    of the [i]-th particle, in ensemble order. *)
Theorem C4_serializeTo_fields (e : CPointPDFParticles) :
  Z.of_nat (List.length (m_particles e)) < 2 ^ 31 ->
  exists out : SCHEMA_CAPABLE,
    serializeTo e = (Ret out, e) /\
    member "datatype" out = SStr className /\
    member "version" out = SInt 1 /\
    member "N" out = SInt (Z.of_nat (List.length (m_particles e))) /\
    map (fun i => entry_fields (index (Z.of_nat i) (member "particles" out)))
        (seq 0 (List.length (m_particles e)))
    = map particle_fields (m_particles e).
Proof.
  intros Hfit. exists (encoded (m_particles e)).
  split; [now apply serializeTo_value|].
  split; [apply member_encoded_datatype|].
  split; [now destruct (m_particles e)|].
  split.
  { rewrite member_encoded_N, to_uint32_small; [reflexivity | lia]. }
  destruct (m_particles e) as [|p ps]; [reflexivity|].
  change (member "particles" (encoded (p :: ps)))
    with (SArr (map particle_schema (p :: ps))).
  rewrite <- (length_map particle_schema (p :: ps)).
  erewrite map_ext by (intros i; rewrite index_of_nat; reflexivity).
  rewrite (map_nth_seq _ entry_fields), map_map. reflexivity.
Qed.

Lemma C4_serializeTo_fields_at_pair :
  exists out : SCHEMA_CAPABLE,
    serializeTo sample_pair = (Ret out, sample_pair) /\
    member "datatype" out = SStr className /\
    member "version" out = SInt 1 /\
    member "N" out = SInt (Z.of_nat (List.length (m_particles sample_pair))) /\
    map (fun i => entry_fields (index (Z.of_nat i) (member "particles" out)))
        (seq 0 (List.length (m_particles sample_pair)))
    = map particle_fields (m_particles sample_pair).
Proof. apply C4_serializeTo_fields. reflexivity. Defined.

(** C9.  [serializeTo] is read-only: for every ensemble it returns a schema
    and leaves the object state, hence the particle count and every
    particle's coordinates and log-weight, exactly as it was. *)
Theorem C9_serializeTo_is_read_only (e : CPointPDFParticles) :
  exists out : SCHEMA_CAPABLE,
    serializeTo e = (Ret out, e) /\
    size (snd (serializeTo e)) = size e /\
    m_particles (snd (serializeTo e)) = m_particles e.
Proof.
  unfold serializeTo, size. run_method. eexists. repeat split.
Qed.

(** ** Particle Ensemble Store *)

(** C5.  For every [n], default value [v] and prior state, [setSize n v]
    leaves exactly [n] particles ([size] returns [n]), each with point [v]
    and log-weight 0; the result does not depend on the prior content, and
    [n = 0] yields the empty ensemble. *)
Theorem C5_setSize_resets (n : nat) (v : TPoint3Df) (e : CPointPDFParticles) :
  exists e' : CPointPDFParticles,
    setSize n v e = (Ret tt, e') /\
    size e' = (Ret n, e') /\
    Forall (fun p => d p = v /\ log_w p = 0%R) (m_particles e') /\
    (forall e0 : CPointPDFParticles, setSize n v e0 = (Ret tt, e')) /\
    setSize 0 v e = (Ret tt, mkPDF []).
Proof.
  exists (mkPDF (repeat (mkParticle v 0%R) n)).
  split; [reflexivity|]. split.
  - unfold size. run_method. now rewrite repeat_length.
  - split; [|split; [intros e0|]; reflexivity].
    cbn [m_particles]. apply Forall_forall. intros p Hp.
    apply repeat_spec in Hp. subst p. split; reflexivity.
Qed.

(** ** Sampler *)

(** C7.  On an empty ensemble [drawSingleSample] throws the precondition
    failure, whatever the random draw, and leaves the state unchanged. *)
Theorem C7_drawSingleSample_empty (u : R) (e : CPointPDFParticles) :
  size e = (Ret 0%nat, e) ->
  drawSingleSample u e = (Throw PreconditionViolation, e).
Proof.
  destruct e as [ps]. unfold size. run_method. intros [= H].
  destruct ps; [reflexivity | discriminate].
Qed.

Lemma C7_drawSingleSample_empty_at_half :
  drawSingleSample (1 / 2) (mkPDF [])
  = (Throw PreconditionViolation, mkPDF []).
Proof.
  apply C7_drawSingleSample_empty. reflexivity.
Defined.

(** ** Statistical Estimator *)

Section CommonShift.

Variable c : R.

Lemma Rmax_shift (a b : R) : Rmax (a + c) (b + c) = (Rmax a b + c)%R.
Proof.
  unfold Rmax. destruct (Rle_dec (a + c) (b + c)), (Rle_dec a b);
    try reflexivity; lra.
Qed.

Lemma fold_max_shift (rest : CParticleList) :
  forall a : R,
    fold_left (fun m q => Rmax m (log_w q)) (map (shift_particle c) rest)
      (a + c)%R
    = (fold_left (fun m q => Rmax m (log_w q)) rest a + c)%R.
Proof.
  induction rest as [|q rest IH]; intros a; cbn [map fold_left];
    [reflexivity|].
  cbn [shift_particle log_w]. rewrite Rmax_shift. apply IH.
Qed.

Lemma max_log_w_shift (p : CProbabilityParticle) (ps : CParticleList) :
  max_log_w (map (shift_particle c) (p :: ps))
  = (max_log_w (p :: ps) + c)%R.
Proof. cbn [map max_log_w shift_particle log_w]. apply fold_max_shift. Qed.

Lemma rescaled_shift (m : R) (ps : CParticleList) :
  map (fun q => exp (log_w q - (m + c))) (map (shift_particle c) ps)
  = map (fun q => exp (log_w q - m)) ps.
Proof.
  rewrite map_map. apply map_ext. intros q.
  cbn [shift_particle log_w]. f_equal. ring.
Qed.

Lemma normalized_weights_shift (ps : CParticleList) :
  normalized_weights (map (shift_particle c) ps) = normalized_weights ps.
Proof.
  destruct ps as [|p ps]; [reflexivity|].
  unfold normalized_weights. cbv zeta.
  rewrite max_log_w_shift, rescaled_shift. reflexivity.
Qed.

Lemma weighted_sum_shift (f : CProbabilityParticle -> R)
  (ps : CParticleList) :
  (forall p, f (shift_particle c p) = f p) ->
  forall ws : list R,
    weighted_sum ws f (map (shift_particle c) ps) = weighted_sum ws f ps.
Proof.
  intros Hf. unfold weighted_sum.
  induction ps as [|p ps IH]; intros ws; destruct ws as [|w ws];
    try reflexivity.
  cbn [map combine Rsum fold_right fst snd].
  rewrite Hf. f_equal. apply IH.
Qed.

Lemma mean_of_shift (ps : CParticleList) :
  mean_of (map (shift_particle c) ps) = mean_of ps.
Proof.
  unfold mean_of. rewrite normalized_weights_shift.
  rewrite !weighted_sum_shift by reflexivity. reflexivity.
Qed.

Lemma getMean_shift (e : CPointPDFParticles) :
  getMean (shift_log_w c e)
  = (fst (getMean e), shift_log_w c e).
Proof.
  destruct e as [ps]. unfold getMean, shift_log_w. run_method.
  destruct ps as [|p ps]; [reflexivity|].
  cbn [map fst]. do 2 f_equal. apply (mean_of_shift (p :: ps)).
Qed.

Lemma getMean_const (e : CPointPDFParticles) :
  getMean e = (fst (getMean e), e).
Proof.
  unfold getMean. run_method. now destruct (m_particles e).
Qed.

End CommonShift.

(** C6.  For every ensemble and every constant [c], adding [c] to every
    log-weight leaves the results of [getMean] and of
    [getCovarianceAndMean] unchanged (over exact real arithmetic). *)
Theorem C6_statistics_ignore_common_shift (c : R) (e : CPointPDFParticles) :
  fst (getMean (shift_log_w c e)) = fst (getMean e) /\
  fst (getCovarianceAndMean (shift_log_w c e))
  = fst (getCovarianceAndMean e).
Proof.
  split; [now rewrite getMean_shift|].
  unfold getCovarianceAndMean, bind.
  rewrite getMean_shift, (getMean_const e).
  destruct (fst (getMean e)) as [mean_point|exn]; [|reflexivity].
  unfold read_particles, ret, shift_log_w. cbn [m_particles fst].
  rewrite normalized_weights_shift.
  rewrite !weighted_sum_shift by reflexivity. reflexivity.
Qed.

(** ** Codec: further properties read off the two templates *)

Lemma particle_schema_inj (p q : CProbabilityParticle) :
  particle_schema p = particle_schema q -> p = q.
Proof.
  destruct p as [[px py pz] pw], q as [[qx qy qz] qw]. cbn.
  intros [= -> -> -> ->]. reflexivity.
Qed.

Lemma map_particle_schema_inj (ps : CParticleList) :
  forall qs : CParticleList,
    map particle_schema ps = map particle_schema qs -> ps = qs.
Proof.
  induction ps as [|p ps IH]; intros [|q qs] H; try discriminate;
    [reflexivity|].
  pose proof (f_equal (fun l => hd SNull l) H) as Hp.
  pose proof (f_equal (@tl SCHEMA_CAPABLE) H) as Hps.
  cbn [map hd tl] in Hp, Hps.
  f_equal; [now apply particle_schema_inj | now apply IH].
Qed.

Lemma version_of_encoded (ps : CParticleList) : version_of (encoded ps) = 1.
Proof. unfold version_of. now rewrite get_encoded_version. Qed.

Lemma N_of_encoded (ps : CParticleList) :
  N_of (encoded ps) = Z.of_nat (List.length ps) mod 2 ^ 32.
Proof.
  unfold N_of. rewrite member_encoded_N. cbn [as_int]. unfold to_uint32.
  apply Z.mod_mod. discriminate.
Qed.

Lemma member_encoded_particles (ps : CParticleList) :
  member "particles" (encoded ps)
  = match ps with [] => SNull | _ :: _ => SArr (map particle_schema ps) end.
Proof. destruct ps; reflexivity. Qed.

(** What the decoder does once the tag and the version let it through. *)
Lemma serializeFrom_accepted (inp : SCHEMA_CAPABLE) (k : Z)
  (e : CPointPDFParticles) :
  member "datatype" inp = SStr className ->
  version_of inp = 1 ->
  serializeFrom inp k e
  = (Ret tt,
     mkPDF (serializeFrom_loop inp
              (repeat (mkParticle origin 0%R) (Z.to_nat (N_of inp))) k)).
Proof.
  intros Htag Hver. unfold serializeFrom.
  rewrite Htag, eq_str_refl, Hver. reflexivity.
Qed.

(** While the counter stays in range, particle [i] is built from the
    entry at position [k + i]. *)
Lemma serializeFrom_loop_entries (inp : SCHEMA_CAPABLE) (qs : CParticleList) :
  forall k : Z,
    - 2 ^ 31 <= k ->
    k + Z.of_nat (List.length qs) < 2 ^ 31 ->
    serializeFrom_loop inp qs k
    = map (fun i => entry_particle inp (k + Z.of_nat i))
        (seq 0 (List.length qs)).
Proof.
  induction qs as [|q qs IH]; intros k Hlo Hhi; [reflexivity|].
  cbn [serializeFrom_loop List.length seq map]. cbn [List.length] in Hhi.
  f_equal.
  - unfold read_particle, entry_particle, set_z, set_y, set_x, set_log_w.
    cbn. now rewrite Z.add_0_r.
  - rewrite int_succ_small, IH, <- seq_shift, map_map by lia.
    apply map_ext. intros i. f_equal. lia.
Qed.

Lemma serializeFrom_loop_same_particles (a b : SCHEMA_CAPABLE)
  (qs : CParticleList) :
  member "particles" a = member "particles" b ->
  forall k : Z, serializeFrom_loop a qs k = serializeFrom_loop b qs k.
Proof.
  intros Hsame. induction qs as [|q qs IH]; intros k; [reflexivity|].
  cbn [serializeFrom_loop]. rewrite IH. f_equal.
  unfold read_particle, particle_field. now rewrite Hsame.
Qed.

Lemma entry_particle_encoded (ps : CParticleList) (j : Z) :
  entry_particle (encoded ps) j = particle_at ps j.
Proof.
  unfold entry_particle, particle_field, particle_at.
  rewrite member_encoded_particles.
  destruct ps as [|p ps]; [now destruct (j <? 0), (Z.to_nat j)|].
  unfold index. destruct (j <? 0); [reflexivity|].
  destruct (Nat.lt_ge_cases (Z.to_nat j) (List.length (p :: ps))) as [Hin|Hout].
  - rewrite (nth_indep _ SNull (particle_schema (mkParticle origin 0)))
      by now rewrite length_map.
    rewrite map_nth. cbn [particle_schema member get assoc_get String.eqb
      Ascii.eqb Bool.eqb as_real].
    apply particle_eta.
  - rewrite !nth_overflow by (try rewrite length_map; exact Hout).
    reflexivity.
Qed.

(** X1.  For an ensemble that the [int] counter can count, the member
    [particles] of the encoder's output is absent exactly when the
    ensemble is empty; otherwise it is an array with one entry per
    particle, in ensemble order, and each entry is an object holding the
    four fields [log_w], [x], [y], [z] and nothing else. *)
Theorem X1_particles_member_of_encoding (e : CPointPDFParticles) :
  Z.of_nat (List.length (m_particles e)) < 2 ^ 31 ->
  exists out : SCHEMA_CAPABLE,
    serializeTo e = (Ret out, e) /\
    has_member "particles" out
    = negb (Nat.eqb (List.length (m_particles e)) 0) /\
    member "particles" out
    = match m_particles e with
      | [] => SNull
      | _ :: _ => SArr (map particle_schema (m_particles e))
      end.
Proof.
  intros Hfit. exists (encoded (m_particles e)).
  split; [now apply serializeTo_value|].
  split; [|apply member_encoded_particles].
  destruct (m_particles e) as [|p ps]; reflexivity.
Qed.

Lemma X1_particles_member_of_encoding_at_pair :
  exists out : SCHEMA_CAPABLE,
    serializeTo sample_pair = (Ret out, sample_pair) /\
    has_member "particles" out = true /\
    member "particles" out
    = SArr [particle_schema sample_particle; particle_schema other_particle].
Proof. apply (X1_particles_member_of_encoding sample_pair). reflexivity. Defined.

(** X2.  The encoder loses nothing: two ensembles that the [int] counter
    can count and that [serializeTo] maps to the same schema are the same
    ensemble. *)
Theorem X2_serializeTo_injective (e1 e2 : CPointPDFParticles) :
  Z.of_nat (List.length (m_particles e1)) < 2 ^ 31 ->
  Z.of_nat (List.length (m_particles e2)) < 2 ^ 31 ->
  fst (serializeTo e1) = fst (serializeTo e2) -> e1 = e2.
Proof.
  intros Hfit1 Hfit2. rewrite !serializeTo_value by assumption.
  cbn [fst]. intros [= H].
  destruct e1 as [ps], e2 as [qs]. cbn [m_particles] in H. f_equal.
  destruct ps as [|p ps], qs as [|q qs]; cbn [encoded] in H.
  - reflexivity.
  - cbn in H. discriminate.
  - cbn in H. discriminate.
  - apply map_particle_schema_inj.
    apply (f_equal (member "particles")) in H.
    change (SArr (map particle_schema (p :: ps))
            = SArr (map particle_schema (q :: qs))) in H.
    exact (f_equal (fun v => match v with SArr l => l | _ => [] end) H).
Qed.

Lemma X2_serializeTo_injective_at_pair : sample_pair = sample_pair.
Proof. apply X2_serializeTo_injective; reflexivity. Defined.

(** X4.  Encoding an ensemble and decoding the result, into any target,
    with the decoder's counter holding a value [k >= 0] that stays in the
    range of an [int] over the loop, gives an ensemble of the same size
    whose particle [i] carries the values of particle [k + i] of the
    original, and [(0, 0, 0)] with log-weight 0 where the original has no
    such particle. *)
Theorem X4_roundtrip_shifted_by_k (e e0 : CPointPDFParticles) (k : Z) :
  0 <= k ->
  k + Z.of_nat (List.length (m_particles e)) < 2 ^ 31 ->
  exists out : SCHEMA_CAPABLE,
    serializeTo e = (Ret out, e) /\
    serializeFrom out k e0
    = (Ret tt,
       mkPDF (map (fun i => particle_at (m_particles e) (k + Z.of_nat i))
                (seq 0 (List.length (m_particles e))))).
Proof.
  intros Hk Hfit. exists (encoded (m_particles e)).
  split; [apply serializeTo_value; lia|].
  rewrite serializeFrom_accepted
    by (apply member_encoded_datatype || apply version_of_encoded).
  rewrite N_of_encoded, Z.mod_small, Nat2Z.id by lia.
  rewrite serializeFrom_loop_entries by (rewrite ?repeat_length; lia).
  rewrite repeat_length. do 2 f_equal.
  apply map_ext. intros i. apply entry_particle_encoded.
Qed.

Lemma X4_roundtrip_shifted_by_k_at_pair :
  exists out : SCHEMA_CAPABLE,
    serializeTo sample_pair = (Ret out, sample_pair) /\
    serializeFrom out 1 sample_ensemble
    = (Ret tt, mkPDF [other_particle; mkParticle origin 0]).
Proof.
  apply (X4_roundtrip_shifted_by_k sample_pair sample_ensemble 1);
    [lia | reflexivity].
Defined.

(** X7.  The decoder looks at four members only: two schemas that agree on
    [datatype], on [version] (with its default), on [N] and on
    [particles] are decoded alike, whatever else they hold. *)
Theorem X7_decoder_reads_four_members (a b : SCHEMA_CAPABLE) (k : Z)
  (e : CPointPDFParticles) :
  member "datatype" a = member "datatype" b ->
  get "version" (SInt 0) a = get "version" (SInt 0) b ->
  member "N" a = member "N" b ->
  member "particles" a = member "particles" b ->
  serializeFrom a k e = serializeFrom b k e.
Proof.
  intros Htag Hver HN Hps.
  unfold serializeFrom, version_of, N_of. rewrite Htag, Hver, HN.
  destruct (eq_str (member "datatype" b) className); [|reflexivity].
  destruct (to_uint8 (as_int (get "version" (SInt 0) b)) =? 1);
    [|reflexivity].
  unfold setSize. run_method. do 2 f_equal.
  now apply serializeFrom_loop_same_particles.
Qed.

Lemma X7_decoder_reads_four_members_at_three :
  serializeFrom schema_three_annotated 7 sample_ensemble
  = serializeFrom schema_three 7 sample_ensemble.
Proof. apply X7_decoder_reads_four_members; reflexivity. Defined.
